(** * art-table: the paginated, selectable artwork table

    A shallow embedding of [src/art-table/src/component/tableArt.tsx]:
    the [useTableArt] hook (the data fetcher) and the [TableArt] component
    (the selection tracker and its view).

    Conventions of the embedding.
    - A JavaScript [number] that the program only ever uses as an integer
      (record identifiers, page index, page size, pending count, total) is a
      [Z]; [Number.prototype.toString] on it is the decimal numeral of the
      Standard Library.
    - [Set<number>] is [gset Z]: the program only calls [has], [add],
      [delete] and [size] on it, never iterates it.
    - Each React state cell is a field of [AppState]; a handler is a function
      [AppState -> AppState] reading the state its closure captured (every
      [useCallback] lists the cells it reads as dependencies, so the closure
      is never stale).
    - The network is an oracle from the requested URL to a [fetch_outcome];
      [fetchData] returns the new state and the list of URLs it requested. *)

From Stdlib Require Import DecimalString DecimalZ DecimalPos.
From stdpp Require Import gmap strings list.

Module TableArt.

#[local] Open Scope Z_scope.

(** ** Data model *)

(** [type workTableProps]. *)
Record workTableProps : Type := {
  id : Z;
  title : string;
  place_of_origin : string;
  artist_display : string;
  inscriptions : string;
  date_start : Z;
  date_end : Z;
}.

Definition API_BASE : string := "https://api.artic.edu/api/v1/artworks".

(** [const rowsPerPage = 12]. *)
Definition rowsPerPage : Z := 12.

(** The state cells of [useTableArt] ([data], [loading], [totalRecords],
    [error]) and of [TableArt] ([page], [selectedIds], [selectCount]), and
    the visibility of the overlay panel behind [overlayRef]. *)
Record AppState : Type := {
  data : list workTableProps;
  loading : bool;
  totalRecords : Z;
  error : option string;
  page : Z;
  selectedIds : gset Z;
  selectCount : Z;
  overlayOpen : bool;
}.

(** The [useState] initial values. *)
Definition initial_state : AppState := {|
  data := [];
  loading := false;
  totalRecords := 0;
  error := None;
  page := 0;
  selectedIds := ∅;
  selectCount := 0;
  overlayOpen := false;
|}.

Definition setData (d : list workTableProps) (st : AppState) : AppState :=
  {| data := d; loading := loading st; totalRecords := totalRecords st;
     error := error st; page := page st; selectedIds := selectedIds st;
     selectCount := selectCount st; overlayOpen := overlayOpen st |}.

Definition setLoading (b : bool) (st : AppState) : AppState :=
  {| data := data st; loading := b; totalRecords := totalRecords st;
     error := error st; page := page st; selectedIds := selectedIds st;
     selectCount := selectCount st; overlayOpen := overlayOpen st |}.

Definition setTotalRecords (n : Z) (st : AppState) : AppState :=
  {| data := data st; loading := loading st; totalRecords := n;
     error := error st; page := page st; selectedIds := selectedIds st;
     selectCount := selectCount st; overlayOpen := overlayOpen st |}.

Definition setError (e : option string) (st : AppState) : AppState :=
  {| data := data st; loading := loading st; totalRecords := totalRecords st;
     error := e; page := page st; selectedIds := selectedIds st;
     selectCount := selectCount st; overlayOpen := overlayOpen st |}.

Definition setPage (p : Z) (st : AppState) : AppState :=
  {| data := data st; loading := loading st; totalRecords := totalRecords st;
     error := error st; page := p; selectedIds := selectedIds st;
     selectCount := selectCount st; overlayOpen := overlayOpen st |}.

Definition setSelectedIds (s : gset Z) (st : AppState) : AppState :=
  {| data := data st; loading := loading st; totalRecords := totalRecords st;
     error := error st; page := page st; selectedIds := s;
     selectCount := selectCount st; overlayOpen := overlayOpen st |}.

Definition setSelectCount (n : Z) (st : AppState) : AppState :=
  {| data := data st; loading := loading st; totalRecords := totalRecords st;
     error := error st; page := page st; selectedIds := selectedIds st;
     selectCount := n; overlayOpen := overlayOpen st |}.

Definition setOverlayOpen (b : bool) (st : AppState) : AppState :=
  {| data := data st; loading := loading st; totalRecords := totalRecords st;
     error := error st; page := page st; selectedIds := selectedIds st;
     selectCount := selectCount st; overlayOpen := b |}.

(** ** The data fetcher: [useTableArt] *)

(** A property of a JSON object as JavaScript reads it: not there
    ([undefined]), [null], or a value. *)
Inductive field (A : Type) : Type :=
  | Absent
  | IsNull
  | Present (a : A).
Arguments Absent {A}.
Arguments IsNull {A}.
Arguments Present {A} a.

(** [x || d], given which values of [A] are truthy. *)
Definition or_default {A : Type} (truthy : A → bool) (x : field A) (d : A) : A :=
  match x with
  | Present a => if truthy a then a else d
  | Absent | IsNull => d
  end.

(** [x?.f]: [undefined] when [x] is [undefined] or [null]. *)
Definition opt_chain {A B : Type} (x : field A) (f : A → field B) : field B :=
  match x with
  | Present a => f a
  | Absent | IsNull => Absent
  end.

(** Every array is truthy, the empty one too; a number is truthy unless it
    is zero; a string is truthy unless it is empty. *)
Definition array_truthy {A : Type} (_ : list A) : bool := true.
Definition number_truthy (n : Z) : bool := negb (n =? 0)%Z.
Definition string_truthy (s : string) : bool :=
  match s with EmptyString => false | String _ _ => true end.

(** The [pagination] object of a response. *)
Record pagination_obj : Type := { total : field Z }.

(** What [await res.json()] resolves to. [JsonNull] is the JSON text
    [null], on which a property read throws. [JsonObject] is an object at
    the shape the endpoint documents ([{ data, pagination: { total } }])
    with every property optional: [data] missing, [null] or an array of
    rows, [pagination] missing, [null] or an object. [JsonOther] is any
    other JSON value, a number, a string, a boolean or an array: reading
    [data] or [pagination] on it gives [undefined] and does not throw. *)
Inductive json_body : Type :=
  | JsonNull
  | JsonObject (body_data : field (list workTableProps))
               (body_pagination : field pagination_obj)
  | JsonOther.

(** What [await fetch(url)] does: reject (transport failure), or resolve to
    a response with its [ok] flag and a body; the body is [None] when
    [res.json()] rejects. *)
Inductive fetch_outcome : Type :=
  | NetworkError
  | Response (ok : bool) (body : option json_body).

(** [n.toString()] for an integer [n]: its decimal numeral, with a leading
    [-] when negative. *)
Definition toString (n : Z) : string := NilZero.string_of_int (Z.to_int n).

(** [new URLSearchParams({ page: (page + 1).toString(), limit: limit.toString() })]. *)
Definition search_params (pg limit : Z) : list (string * string) :=
  [("page", toString (pg + 1)); ("limit", toString limit)].

(** [URLSearchParams.prototype.toString] on keys and values that need no
    percent-encoding (letters, digits and [-]). *)
Fixpoint params_to_string (ps : list (string * string)) : string :=
  match ps with
  | [] => ""
  | [(k, v)] => k +:+ "=" +:+ v
  | (k, v) :: rest => k +:+ "=" +:+ v +:+ "&" +:+ params_to_string rest
  end.

(** The template literal [`${API_BASE}?${params}`]. *)
Definition request_url (pg limit : Z) : string :=
  API_BASE +:+ "?" +:+ params_to_string (search_params pg limit).

(** What the [try] block can throw: the [TypeError] of a rejected [fetch]
    or of a property read on [null], the [SyntaxError] of [res.json()] on a
    body that is not JSON, and [new Error(message)]. *)
Inductive exn : Type :=
  | TypeError
  | SyntaxError
  | Error (message : string).

(** The [try] block of [fetchData] once the request has settled: either an
    exception or the state after [setData] and [setTotalRecords]. *)
Definition try_block (o : fetch_outcome) (st : AppState) : exn + AppState :=
  match o with
  | NetworkError => inl TypeError
  | Response ok body =>
      if negb ok then inl (Error "API request failed")
      else match body with
           | None => inl SyntaxError
           | Some JsonNull => inl TypeError
           | Some (JsonObject d p) =>
               let st1 := setData (or_default array_truthy d []) st in
               inr (setTotalRecords
                      (or_default number_truthy (opt_chain p total) 0) st1)
           | Some JsonOther =>
               let st1 := setData (or_default array_truthy Absent []) st in
               inr (setTotalRecords
                      (or_default number_truthy (opt_chain Absent total) 0) st1)
           end
  end.

(** [try { ... } catch (error) { setError('Failed to fetch artworks') }
    finally { setLoading(false) }]. *)
Definition settle (o : fetch_outcome) (st : AppState) : AppState :=
  let st' := match try_block o st with
             | inl _ => setError (Some "Failed to fetch artworks") st
             | inr s => s
             end in
  setLoading false st'.

(** [fetchData] for the [page] of the state and the given [limit]: the
    state it leaves and the URLs it requested. *)
Definition fetchData (net : string → fetch_outcome) (limit : Z)
    (st : AppState) : AppState * list string :=
  let st1 := setError None (setLoading true st) in
  let url := request_url (page st) limit in
  (settle (net url) st1, [url]).

(** A fetch that fails by transport exception or non-success status. *)
Definition failed (o : fetch_outcome) : Prop :=
  match o with
  | NetworkError => True
  | Response ok _ => ok = false
  end.

(** ** The selection tracker and the view: [TableArt] *)

(** [rows.filter(row => selectedIds.has(row.id))]. *)
Definition pageSelection (st : AppState) : list workTableProps :=
  filter (λ row, id row ∈ selectedIds st) (data st).

(** [selectedIds.size]. *)
Definition selectionCount (st : AppState) : nat := size (selectedIds st).

(** [setPage(e.page ?? 0)]; [e.page] is optional in [DataTablePageEvent]. *)
Definition onPageChange (e_page : option Z) (st : AppState) : AppState :=
  setPage (default 0%Z e_page) st.

(** [value.some(v => v.id === row.id)]. *)
Definition checked (value : list workTableProps) (row : workTableProps) : bool :=
  existsb (λ v, bool_decide (id v = id row)) value.

(** [onSelectionChange(value)]: [rows.forEach] over a copy of the set. *)
Definition onSelectionChange (value : list workTableProps)
    (st : AppState) : AppState :=
  let next :=
    foldl (λ (next : gset Z) row,
             if checked value row then {[id row]} ∪ next
             else next ∖ {[id row]})
          (selectedIds st) (data st) in
  setSelectedIds next st.

(** [a.slice(0, n)] for an integer [n]: a negative [n] counts from the
    end, and the result never runs past the array. *)
Definition slice0 {A : Type} (n : Z) (a : list A) : list A :=
  if (n <? 0)%Z then take (Z.to_nat (Z.max (Z.of_nat (length a) + n) 0)) a
  else take (Z.to_nat n) a.

(** [rows.filter(r => !selectedIds.has(r.id))]. *)
Definition available (st : AppState) : list workTableProps :=
  filter (λ r, id r ∉ selectedIds st) (data st).

(** [handleCustomSelect()]. *)
Definition handleCustomSelect (st : AppState) : AppState :=
  if (selectCount st <=? 0)%Z then st
  else
    let toSelect := slice0 (selectCount st) (available st) in
    let next := foldl (λ (next : gset Z) r, {[id r]} ∪ next)
                      (selectedIds st) toSelect in
    setOverlayOpen false (setSelectCount 0 (setSelectedIds next st)).

(** What the component returns. *)
Inductive View : Type :=
  | ErrorPanel (message : string)
  | TablePage (value selection : list workTableProps)
              (first total : Z) (busy : bool).

(** [if (error) return <error panel>; return <table page>]. *)
Definition render (st : AppState) : View :=
  let table := TablePage (data st) (pageSelection st)
                         (page st * rowsPerPage) (totalRecords st)
                         (loading st) in
  match error st with
  | Some msg => if string_truthy msg then ErrorPanel msg else table
  | None => table
  end.

(** A page event from the paginator: the handler sets [page]; [fetchData]
    depends on [page], so the effect runs it again when [page] changed. *)
Definition navigate (net : string → fetch_outcome) (e_page : option Z)
    (st : AppState) : AppState * list string :=
  let st' := onPageChange e_page st in
  if decide (page st' = page st) then (st', [])
  else fetchData net rowsPerPage st'.

(** Mounting the component: the initial state, then the effect's first
    [fetchData]. *)
Definition mount (net : string → fetch_outcome) : AppState * list string :=
  fetchData net rowsPerPage initial_state.

(** The Retry button: [window.location.reload()] discards the state of the
    page and mounts the component afresh. *)
Definition retry (net : string → fetch_outcome) (_ : AppState)
    : AppState * list string :=
  mount net.

(** ** The parts of the view around the table *)

(** [fetchData] up to its [await]: the two writes made before the request
    leaves. What follows the [await] is [settle], run when the response
    arrives. *)
Definition fetch_start (st : AppState) : AppState :=
  setError None (setLoading true st).

(** Two fetches in flight, answered in the other order: the fetch for the
    page of [st] leaves; before its response arrives the page changes to
    [pB] and the fetch for that page leaves; the response [oB] to the second
    request arrives, and then the response [oA] to the first. Nothing in
    [fetchData] cancels a request or compares a response with the current
    page. *)
Definition overtaken (pB : Z) (oA oB : fetch_outcome) (st : AppState) : AppState :=
  settle oA (settle oB (fetch_start (onPageChange (Some pB) (fetch_start st)))).

(** The response has a success status and a body that is a JSON object. *)
Definition is_object_response (o : fetch_outcome) : bool :=
  match o with
  | Response true (Some (JsonObject _ _)) => true
  | _ => false
  end.

(** [type columnDef]; the property [field] is [col_field] here. *)
Record columnDef : Type := {
  col_field : string;
  header : string;
  sortable : option bool;
}.

Definition COLUMNS : list columnDef :=
  [ {| col_field := "title"; header := "Title"; sortable := Some true |};
    {| col_field := "place_of_origin"; header := "Origin"; sortable := None |};
    {| col_field := "artist_display"; header := "Artist"; sortable := None |};
    {| col_field := "inscriptions"; header := "Inscriptions"; sortable := None |};
    {| col_field := "date_start"; header := "Date Start"; sortable := None |};
    {| col_field := "date_end"; header := "Date End"; sortable := None |} ].

(** The value of a property of a row: a string or a number. *)
Inductive cell_value : Type :=
  | StringValue (s : string)
  | NumberValue (n : Z).

Definition value_truthy (v : cell_value) : bool :=
  match v with
  | StringValue s => string_truthy s
  | NumberValue n => number_truthy n
  end.

(** [rowData[name]]: [undefined] for a name that is no property of a row. *)
Definition get_property (rowData : workTableProps) (name : string)
    : field cell_value :=
  if decide (name = "id") then Present (NumberValue (id rowData))
  else if decide (name = "title") then Present (StringValue (title rowData))
  else if decide (name = "place_of_origin")
    then Present (StringValue (place_of_origin rowData))
  else if decide (name = "artist_display")
    then Present (StringValue (artist_display rowData))
  else if decide (name = "inscriptions")
    then Present (StringValue (inscriptions rowData))
  else if decide (name = "date_start")
    then Present (NumberValue (date_start rowData))
  else if decide (name = "date_end")
    then Present (NumberValue (date_end rowData))
  else Absent.

(** The text React puts in the document for a string or a number child. *)
Definition text_of (v : cell_value) : string :=
  match v with
  | StringValue s => s
  | NumberValue n => toString n
  end.

(** The [body] template of a column: the text of the cell of [rowData],
    [rowData.title || "Untitled"] in the title column and
    [rowData[col.field] || "—"] in the others. *)
Definition body (col : columnDef) (rowData : workTableProps) : string :=
  if decide (col_field col = "title")
  then or_default string_truthy (Present (title rowData)) "Untitled"
  else text_of (or_default value_truthy
                  (get_property rowData (col_field col)) (StringValue "—")).

(** [badge={selectionCount > 0 ? selectionCount.toString() : undefined}]. *)
Definition badge (st : AppState) : option string :=
  if (0 <? Z.of_nat (selectionCount st))
  then Some (toString (Z.of_nat (selectionCount st)))
  else None.

(** [{selectionCount > 0 && (<Chip label=.../> <Tag value=.../>)}]: the
    label [`${selectionCount} selected`] and the value
    [`${selectionCount}/${totalRecords}`], when they are shown. *)
Definition chip_and_tag (st : AppState) : option (string * string) :=
  if (0 <? Z.of_nat (selectionCount st))
  then Some (toString (Z.of_nat (selectionCount st)) +:+ " selected",
             toString (Z.of_nat (selectionCount st)) +:+ "/"
               +:+ toString (totalRecords st))
  else None.

(** [rows.length - pageSelection.length]: the number in the label of the
    overlay and the [max] of its input. *)
Definition availableCount (st : AppState) : Z :=
  Z.of_nat (length (data st)) - Z.of_nat (length (pageSelection st)).

(** [onValueChange={(e) => setSelectCount(e.value ?? 0)}]. *)
Definition onValueChange (e_value : option Z) (st : AppState) : AppState :=
  setSelectCount (default 0 e_value) st.

(** The Bulk Select button: [overlayRef.current?.toggle(e)]. *)
Definition toggleOverlay (st : AppState) : AppState :=
  setOverlayOpen (negb (overlayOpen st)) st.

(** What a user can do on the table page. *)
Inductive Event : Type :=
  | PageEvent (net : string → fetch_outcome) (e_page : option Z)
  | SelectionEvent (value : list workTableProps)
  | ValueChangeEvent (e_value : option Z)
  | ApplyClick
  | BulkSelectClick.

(** The handler the component binds to each event. *)
Definition handle (ev : Event) (st : AppState) : AppState :=
  match ev with
  | PageEvent net e_page => (navigate net e_page st).1
  | SelectionEvent value => onSelectionChange value st
  | ValueChangeEvent e_value => onValueChange e_value st
  | ApplyClick => handleCustomSelect st
  | BulkSelectClick => toggleOverlay st
  end.

(** The states in which the events of a run are handled, in order. *)
Fixpoint trace (evs : list Event) (st : AppState) : list AppState :=
  match evs with
  | [] => []
  | ev :: evs => st :: trace evs (handle ev st)
  end.

Definition run (evs : list Event) (st : AppState) : AppState :=
  foldl (λ s ev, handle ev s) st evs.

(** ** Specification vocabulary *)

(** The number a decimal numeral denotes, as the endpoint reads a query
    parameter back; [None] for a text that is no numeral. *)
Definition read_number (v : string) : option Z :=
  option_map Z.of_int (NilZero.int_of_string v).

(** The identifiers of a list of rows. *)
Definition ids (rows : list workTableProps) : gset Z := list_to_set (id <$> rows).

(** A run of page events, each with the network it meets. *)
Definition navigate_all (evs : list ((string → fetch_outcome) * option Z))
    (st : AppState) : AppState :=
  foldl (λ s ev, (navigate ev.1 ev.2 s).1) st evs.

(** ** Concrete runs *)

Definition mk_row (i : Z) : workTableProps :=
  {| id := i; title := "t"; place_of_origin := "o"; artist_display := "a";
     inscriptions := ""; date_start := 1900; date_end := 1901 |}.

Definition with_rows (rs : list Z) (sel : list Z) (count : Z) : AppState :=
  setSelectCount count
    (setSelectedIds (list_to_set sel) (setData (mk_row <$> rs) initial_state)).

(** A page of four rows, two identifiers selected (one of them on the
    page), and a pending count. *)
Definition st_bulk (count : Z) : AppState := with_rows [1; 2; 3; 4] [2; 9] count.

(** A network on which every request succeeds with the given rows. *)
Definition net_ok (rs : list Z) (n : Z) : string → fetch_outcome :=
  λ _, Response true
         (Some (JsonObject (Present (mk_row <$> rs))
                           (Present {| total := Present n |}))).

(** A network on which every request gets a non-success status. *)
Definition net_down : string → fetch_outcome := λ _, Response false None.

(** The first page loaded with two rows, then a page change to index 3
    that meets a non-success status. *)
Definition st_loaded : AppState := (mount (net_ok [1; 2] 100)).1.
Definition st_failed_at_3 : AppState := (navigate net_down (Some 3) st_loaded).1.

Example url_page3 :
  request_url 3 12 = "https://api.artic.edu/api/v1/artworks?page=4&limit=12".
Proof. vm_compute. reflexivity. Qed.

Example toggle_run :
  selectedIds (onSelectionChange [mk_row 2] (with_rows [1; 2; 3] [1; 7] 0))
  = {[2; 7]}.
Proof. vm_compute. reflexivity. Qed.

Example bulk_run :
  selectedIds (handleCustomSelect (st_bulk 2))
  = {[1; 2; 3; 9]}.
Proof. vm_compute. reflexivity. Qed.

Example bulk_run_over :
  selectedIds (handleCustomSelect (st_bulk 50))
  = {[1; 2; 3; 4; 9]}.
Proof. vm_compute. reflexivity. Qed.

(** ** Lemmas on the set operations *)

Section Selection.

Implicit Types (st : AppState) (rows value : list workTableProps).
Implicit Types (sel : gset Z) (i : Z).

Lemma ids_nil : ids [] = ∅.
Proof. reflexivity. Qed.

Lemma ids_cons r rows : ids (r :: rows) = {[id r]} ∪ ids rows.
Proof. reflexivity. Qed.

Lemma elem_of_ids rows i : i ∈ ids rows ↔ ∃ r, r ∈ rows ∧ id r = i.
Proof.
  unfold ids. rewrite elem_of_list_to_set, list_elem_of_fmap.
  split; intros (r & H1 & H2); exists r; auto.
Qed.

Lemma checked_true value row :
  checked value row = true ↔ ∃ v, v ∈ value ∧ id v = id row.
Proof.
  unfold checked. rewrite existsb_exists. split.
  - intros (v & Hv & Heq). exists v. split.
    + by apply list_elem_of_In.
    + by apply bool_decide_eq_true in Heq.
  - intros (v & Hv & Heq). exists v. split.
    + by apply list_elem_of_In.
    + by apply bool_decide_eq_true.
Qed.

Lemma checked_ids value row : checked value row = true ↔ id row ∈ ids value.
Proof.
  rewrite checked_true, elem_of_ids. split; intros (v & ? & ?); eauto.
Qed.

(** The [forEach] of [onSelectionChange], by identifier. *)
Lemma toggle_fold value rows sel i :
  i ∈ foldl (λ (next : gset Z) row,
               if checked value row then {[id row]} ∪ next
               else next ∖ {[id row]}) sel rows
  ↔ (i ∈ ids rows ∧ i ∈ ids value) ∨ ((i ∉ ids rows) ∧ i ∈ sel).
Proof.
  revert sel. induction rows as [|r rows IH]; intros sel; simpl.
  - rewrite ids_nil, elem_of_empty. tauto.
  - rewrite IH, ids_cons, (elem_of_union {[id r]}), elem_of_singleton.
    clear IH. destruct (checked value r) eqn:Hc.
    + apply checked_ids in Hc. rewrite elem_of_union, elem_of_singleton.
      destruct (decide (i ∈ ids rows)); destruct (decide (i = id r));
        subst; intuition auto.
    + assert (Hnv : id r ∉ ids value).
      { intros Hin. apply checked_ids in Hin. congruence. }
      rewrite elem_of_difference, elem_of_singleton.
      destruct (decide (i ∈ ids rows)); destruct (decide (i = id r));
        subst; intuition auto.
Qed.

(** The [forEach] of [handleCustomSelect]. *)
Lemma add_fold rows sel :
  foldl (λ (next : gset Z) r, {[id r]} ∪ next) sel rows = sel ∪ ids rows.
Proof.
  revert sel. induction rows as [|r rows IH]; intros sel; simpl.
  - rewrite ids_nil. set_solver.
  - rewrite IH, ids_cons. set_solver.
Qed.

Lemma size_ids rows : (size (ids rows) ≤ length rows)%nat.
Proof.
  induction rows as [|r rows IH].
  - by rewrite ids_nil, size_empty.
  - rewrite ids_cons, size_union_alt, size_singleton. simpl.
    assert (size (ids rows ∖ {[id r]}) ≤ size (ids rows))%nat.
    { apply subseteq_size. apply subseteq_difference_l. done. }
    lia.
Qed.

Lemma slice0_pos {A : Type} (n : Z) (a : list A) :
  0 < n → slice0 n a = take (Z.to_nat n) a.
Proof. intros Hn. unfold slice0. case_eq (n <? 0); [lia | done]. Qed.

Lemma available_spec st r :
  r ∈ available st ↔ r ∈ data st ∧ id r ∉ selectedIds st.
Proof. unfold available. rewrite list_elem_of_filter. tauto. Qed.

Lemma ids_available_disjoint st : ids (available st) ## selectedIds st.
Proof.
  intros i Hi Hs. apply elem_of_ids in Hi as (r & Hr & <-).
  apply available_spec in Hr. tauto.
Qed.

Lemma ids_take_subseteq (n : nat) rows : ids (take n rows) ⊆ ids rows.
Proof.
  intros i Hi. apply elem_of_ids in Hi as (r & Hr & <-).
  apply elem_of_ids. exists r. split; [|done]. by eapply subseteq_take.
Qed.

(** The selection after [handleCustomSelect], when the count is positive. *)
Lemma handleCustomSelect_pos st :
  0 < selectCount st →
  handleCustomSelect st =
  setOverlayOpen false
    (setSelectCount 0
       (setSelectedIds
          (selectedIds st ∪ ids (take (Z.to_nat (selectCount st)) (available st)))
          st)).
Proof.
  intros Hpos. unfold handleCustomSelect.
  case_eq (selectCount st <=? 0); [lia|intros _].
  by rewrite add_fold, slice0_pos.
Qed.

(** ** The selection tracker *)

(** C1. [onSelectionChange] reconciles the selection with the checked rows
    of the page: the identifier of a row of the page is selected afterwards
    exactly when a checked row carries it; an identifier of no row of the
    page is selected afterwards exactly when it was before; and with nothing
    checked the selection loses the page's identifiers and nothing else. *)
Theorem onSelectionChange_reconciles value st :
  (∀ row, row ∈ data st →
     (id row ∈ selectedIds (onSelectionChange value st)
      ↔ ∃ v, v ∈ value ∧ id v = id row))
  ∧ (∀ i, (∀ row, row ∈ data st → id row ≠ i) →
       (i ∈ selectedIds (onSelectionChange value st) ↔ i ∈ selectedIds st))
  ∧ selectedIds (onSelectionChange [] st) = selectedIds st ∖ ids (data st).
Proof.
  unfold onSelectionChange, setSelectedIds. cbn [selectedIds].
  split; [|split].
  - intros row Hrow. rewrite toggle_fold. split.
    + intros [[_ Hv]|[Hn _]].
      * apply elem_of_ids in Hv as (v & ? & ?). eauto.
      * destruct Hn. apply elem_of_ids. eauto.
    + intros (v & Hv & Heq). left. split; apply elem_of_ids; eauto.
  - intros i Hoff. rewrite toggle_fold.
    assert (Hn : i ∉ ids (data st)).
    { intros Hr. apply elem_of_ids in Hr as (row & Hrow & Heq).
      by destruct (Hoff row). }
    tauto.
  - apply set_eq. intros i. rewrite toggle_fold, elem_of_difference, ids_nil.
    rewrite elem_of_empty. tauto.
Qed.

Lemma onSelectionChange_reconciles_witness :
  2 ∈ selectedIds (onSelectionChange [mk_row 2] (with_rows [1; 2; 3] [1; 7] 0))
  ∧ (7 ∈ selectedIds (onSelectionChange [mk_row 2] (with_rows [1; 2; 3] [1; 7] 0))
     ↔ 7 ∈ selectedIds (with_rows [1; 2; 3] [1; 7] 0)).
Proof.
  pose proof (onSelectionChange_reconciles [mk_row 2]
                (with_rows [1; 2; 3] [1; 7] 0)) as (Hpage & Hother & _).
  split.
  - apply (Hpage (mk_row 2)).
    + simpl. apply list_elem_of_In. simpl. tauto.
    + exists (mk_row 2). split; [|reflexivity].
      apply list_elem_of_In. simpl. tauto.
  - apply Hother. intros row Hrow. apply list_elem_of_In in Hrow. simpl in Hrow.
    destruct Hrow as [<-|[<-|[<-|[]]]]; simpl; lia.
Defined.

(** C8. The rows marked selected are the rows of the page whose identifier
    is in the selection, in page order: a row is among them exactly when it
    is on the page and its identifier is selected. *)
Theorem pageSelection_intersection st :
  (∀ row, row ∈ pageSelection st ↔ row ∈ data st ∧ id row ∈ selectedIds st)
  ∧ pageSelection st `sublist_of` data st.
Proof.
  unfold pageSelection. split.
  - intros row. rewrite list_elem_of_filter. tauto.
  - apply sublist_filter.
Qed.

(** C3. With a positive pending count that does not exceed the number of
    unselected rows of the page, [handleCustomSelect] adds to the selection
    exactly the identifiers of the first [count] unselected rows, in page
    order, and resets the pending count to zero; with a count of zero or
    less it changes nothing. *)
Theorem handleCustomSelect_first_count st :
  (0 < selectCount st ≤ Z.of_nat (length (available st)) →
     let chosen := take (Z.to_nat (selectCount st)) (available st) in
     Z.of_nat (length chosen) = selectCount st
     ∧ selectedIds (handleCustomSelect st) = selectedIds st ∪ ids chosen
     ∧ selectedIds (handleCustomSelect st) ∖ selectedIds st = ids chosen
     ∧ selectCount (handleCustomSelect st) = 0)
  ∧ (selectCount st ≤ 0 → handleCustomSelect st = st).
Proof.
  split.
  - intros [Hpos Hle] chosen. rewrite handleCustomSelect_pos by done. simpl.
    fold chosen. repeat split.
    + unfold chosen. rewrite length_take. lia.
    + pose proof (ids_available_disjoint st) as Hdisj.
      pose proof (ids_take_subseteq (Z.to_nat (selectCount st)) (available st))
        as Hsub.
      fold chosen in Hsub. set_solver.
  - intros Hle. unfold handleCustomSelect.
    case_eq (selectCount st <=? 0); [done | lia].
Qed.

Lemma handleCustomSelect_first_count_witness :
  selectedIds (handleCustomSelect (st_bulk 2))
  = selectedIds (st_bulk 2) ∪ ids [mk_row 1; mk_row 3]
  ∧ handleCustomSelect (st_bulk 0)
    = st_bulk 0.
Proof.
  split.
  - apply (proj1 (handleCustomSelect_first_count (st_bulk 2))).
    vm_compute. split; [reflexivity | discriminate].
  - apply (proj2 (handleCustomSelect_first_count (st_bulk 0))).
    simpl. lia.
Defined.

(** C4. With a pending count above the number of unselected rows of the
    page, [handleCustomSelect] is clamped: it selects the unselected rows of
    the page and stops, so the selection gains at most that many
    identifiers, each the identifier of an unselected row of the page. *)
Theorem handleCustomSelect_clamped st :
  Z.of_nat (length (available st)) < selectCount st →
  selectedIds (handleCustomSelect st) = selectedIds st ∪ ids (available st)
  ∧ (size (selectedIds (handleCustomSelect st) ∖ selectedIds st)
     ≤ length (available st))%nat
  ∧ ∀ i, i ∈ selectedIds (handleCustomSelect st) ∖ selectedIds st →
         ∃ r, r ∈ available st ∧ id r = i.
Proof.
  intros Hgt. rewrite handleCustomSelect_pos by lia. simpl.
  rewrite take_ge by lia.
  assert (Hdiff : (selectedIds st ∪ ids (available st)) ∖ selectedIds st
                  = ids (available st)).
  { pose proof (ids_available_disjoint st). set_solver. }
  rewrite Hdiff. repeat split.
  - apply size_ids.
  - intros i Hi. by apply elem_of_ids.
Qed.

Lemma handleCustomSelect_clamped_witness :
  (size (selectedIds (handleCustomSelect (st_bulk 50))
         ∖ selectedIds (st_bulk 50))
   ≤ length (available (st_bulk 50)))%nat.
Proof.
  apply (handleCustomSelect_clamped (st_bulk 50)).
  vm_compute. reflexivity.
Defined.

(** C9. [handleCustomSelect] never removes an identifier, whatever the
    pending count, the rows and the selection; and every identifier it adds
    is the identifier of a row of the page. *)
Theorem handleCustomSelect_monotone st :
  selectedIds st ⊆ selectedIds (handleCustomSelect st)
  ∧ ∀ i, i ∈ selectedIds (handleCustomSelect st) → i ∉ selectedIds st →
         ∃ r, r ∈ data st ∧ id r = i.
Proof.
  destruct (decide (0 < selectCount st)) as [Hpos|Hle].
  - rewrite handleCustomSelect_pos by done. simpl. split.
    + apply union_subseteq_l.
    + intros i Hi Hn. apply elem_of_union in Hi as [Hi|Hi]; [done|].
      apply ids_take_subseteq, elem_of_ids in Hi as (r & Hr & Heq).
      apply available_spec in Hr. exists r. tauto.
  - unfold handleCustomSelect.
    case_eq (selectCount st <=? 0); [intros _ | lia]. split; [done|].
    intros i Hi Hn. done.
Qed.

Lemma handleCustomSelect_monotone_witness :
  ∃ r, r ∈ data (st_bulk 2) ∧ id r = 3.
Proof.
  apply (proj2 (handleCustomSelect_monotone (st_bulk 2))).
  - vm_compute. reflexivity.
  - vm_compute. discriminate.
Defined.

End Selection.

(** ** The data fetcher *)

Section Fetcher.

Implicit Types (st : AppState) (net : string → fetch_outcome).
Implicit Types (o : fetch_outcome).

(** Reading back a number printed by [toString]. *)
Lemma int_of_toString (n : Z) :
  option_map Z.of_int (NilZero.int_of_string (toString n)) = Some n.
Proof.
  unfold toString. rewrite NilZero.isi.
  - simpl. by rewrite DecimalZ.of_to.
  - destruct n; simpl; try discriminate.
    intros [= Hnil]. by apply Unsigned.to_uint_nonnil in Hnil.
  - destruct n; simpl; try discriminate.
    intros [= Hnil]. by apply Unsigned.to_uint_nonnil in Hnil.
Qed.

(** A failed fetch ends in the [catch] block. *)
Lemma try_block_failed o st : failed o → ∃ e, try_block o st = inl e.
Proof.
  destruct o as [|ok body]; simpl.
  - eauto.
  - intros ->. simpl. eauto.
Qed.

(** After a failed fetch only [error] and [loading] have been written. *)
Lemma fetchData_failed net limit st :
  failed (net (request_url (page st) limit)) →
  (fetchData net limit st).1
  = setLoading false
      (setError (Some "Failed to fetch artworks")
         (setError None (setLoading true st))).
Proof.
  intros Hfail. unfold fetchData. cbn [fst]. unfold settle.
  by destruct (try_block_failed _ (setError None (setLoading true st)) Hfail)
    as [e ->].
Qed.

(** Neither outcome of a fetch touches the cells of the component. *)
Lemma settle_frame o st :
  selectedIds (settle o st) = selectedIds st
  ∧ page (settle o st) = page st
  ∧ selectCount (settle o st) = selectCount st.
Proof.
  unfold settle. destruct o as [|[] [[|d p|]|]]; simpl; auto.
Qed.

Lemma fetchData_frame net limit st :
  selectedIds (fetchData net limit st).1 = selectedIds st
  ∧ page (fetchData net limit st).1 = page st
  ∧ selectCount (fetchData net limit st).1 = selectCount st.
Proof.
  unfold fetchData. cbn [fst].
  destruct (settle_frame (net (request_url (page st) limit))
              (setError None (setLoading true st))) as (-> & -> & ->).
  done.
Qed.

Lemma navigate_selectedIds net e st :
  selectedIds (navigate net e st).1 = selectedIds st.
Proof.
  unfold navigate. case_decide.
  - done.
  - by rewrite (proj1 (fetchData_frame _ _ _)).
Qed.

(** C7. For a page index [P] and a page size [S], [fetchData] requests one
    URL, and that URL is the text of the endpoint followed by
    [?page=p&limit=l], where the numerals [p] and [l] read back as the
    1-based page number [P + 1] and as [S]. *)
Theorem fetchData_one_request net (P S : Z) st :
  0 ≤ P → 0 < S → page st = P →
  ∃ p l : string,
    (fetchData net S st).2
    = ["https://api.artic.edu/api/v1/artworks?page=" +:+ p +:+ "&limit=" +:+ l]
    ∧ read_number p = Some (P + 1)
    ∧ read_number l = Some S.
Proof.
  intros _ _ <-. exists (toString (page st + 1)), (toString S).
  split; [reflexivity|]. split; apply int_of_toString.
Qed.

Lemma fetchData_one_request_witness :
  ∃ p l : string,
    (fetchData net_down 12 (setPage 3 initial_state)).2
    = ["https://api.artic.edu/api/v1/artworks?page=" +:+ p +:+ "&limit=" +:+ l]
    ∧ read_number p = Some 4
    ∧ read_number l = Some 12.
Proof.
  apply (fetchData_one_request net_down 3 12 (setPage 3 initial_state));
    [lia | lia | reflexivity].
Defined.

(** C10. When the request succeeds and the body is an object, missing
    properties get defaults and no error is set: without [data], or with a
    [null] one, the record list is empty; without [pagination], or without
    [total] in it (or with either [null]), the total is 0. *)
Theorem fetchData_defaults net limit st d p :
  net (request_url (page st) limit) = Response true (Some (JsonObject d p)) →
  let st' := (fetchData net limit st).1 in
  error st' = None
  ∧ (d = Absent ∨ d = IsNull → data st' = [])
  ∧ (p = Absent ∨ p = IsNull
     ∨ (∃ po, p = Present po ∧ (total po = Absent ∨ total po = IsNull)) →
     totalRecords st' = 0).
Proof.
  intros Hnet. unfold fetchData. cbn [fst]. rewrite Hnet.
  unfold settle. simpl. split; [done|]. split.
  - by intros [-> | ->].
  - intros [-> | [-> | (po & -> & [Ht | Ht])]]; simpl; try done;
      by rewrite Ht.
Qed.

Lemma fetchData_defaults_witness :
  let st' := (fetchData (λ _, Response true (Some (JsonObject Absent Absent)))
                12 (st_bulk 0)).1 in
  error st' = None ∧ data st' = [] ∧ totalRecords st' = 0.
Proof.
  destruct (fetchData_defaults
              (λ _, Response true (Some (JsonObject Absent Absent)))
              12 (st_bulk 0) Absent Absent eq_refl) as (He & Hd & Ht).
  split; [exact He|]. split; [apply Hd | apply Ht]; by left.
Defined.

(** C5, as the code has it. A fetch that fails by transport exception or
    non-success status sets the error message [Failed to fetch artworks]
    and leaves the record list and the total where they were: [setData] is
    not reached, so the rows of the last successful fetch stay in the
    state. *)
Theorem fetchData_failure_keeps_data net limit st :
  failed (net (request_url (page st) limit)) →
  let st' := (fetchData net limit st).1 in
  error st' = Some "Failed to fetch artworks"
  ∧ data st' = data st
  ∧ totalRecords st' = totalRecords st.
Proof.
  intros Hfail st'. unfold st'. by rewrite fetchData_failed.
Qed.

Lemma fetchData_failure_keeps_data_witness :
  let st' := (fetchData net_down 12 (setPage 3 st_loaded)).1 in
  error st' = Some "Failed to fetch artworks"
  ∧ data st' = data (setPage 3 st_loaded)
  ∧ totalRecords st' = totalRecords (setPage 3 st_loaded).
Proof.
  apply (fetchData_failure_keeps_data net_down 12 (setPage 3 st_loaded)).
  reflexivity.
Defined.

(** C5, as stated, fails: after a successful load of two rows, a fetch
    that gets a non-success status leaves both the two rows and the error
    message in the state. *)
Lemma failed_fetch_keeps_stale_rows :
  failed (net_down (request_url (page (setPage 3 st_loaded)) 12))
  ∧ data (fetchData net_down 12 (setPage 3 st_loaded)).1 = [mk_row 1; mk_row 2]
  ∧ data (fetchData net_down 12 (setPage 3 st_loaded)).1 ≠ []
  ∧ error (fetchData net_down 12 (setPage 3 st_loaded)).1
    = Some "Failed to fetch artworks".
Proof. repeat split. discriminate. Qed.

End Fetcher.

(** ** The view *)

Section ViewOrchestration.

Implicit Types (st : AppState) (net : string → fetch_outcome).

(** C2. No run of page changes, whatever the network answers, changes the
    selection, and [onPageChange] itself does not: an identifier is
    selected after the run exactly when it was before, and a row of the
    page shown after the run whose identifier was selected is marked
    selected. *)
Theorem page_changes_keep_selection
    (evs : list ((string → fetch_outcome) * option Z)) st :
  selectedIds (navigate_all evs st) = selectedIds st
  ∧ (∀ e, selectedIds (onPageChange e st) = selectedIds st)
  ∧ (∀ i, i ∈ selectedIds (navigate_all evs st) ↔ i ∈ selectedIds st)
  ∧ (∀ row, row ∈ data (navigate_all evs st) → id row ∈ selectedIds st →
            row ∈ pageSelection (navigate_all evs st)).
Proof.
  assert (Hsel : selectedIds (navigate_all evs st) = selectedIds st).
  { unfold navigate_all. revert st.
    induction evs as [|[net e] evs IH]; intros st; simpl.
    - done.
    - by rewrite IH, navigate_selectedIds. }
  split; [done|]. split; [done|]. split.
  - intros i. by rewrite Hsel.
  - intros row Hrow Hid. unfold pageSelection.
    apply list_elem_of_filter. by rewrite Hsel.
Qed.

Lemma page_changes_keep_selection_witness :
  mk_row 2 ∈ pageSelection
    (navigate_all [(net_ok [5; 6] 100, Some 3); (net_ok [1; 2] 100, Some 0)]
       (setSelectedIds {[2]} st_loaded)).
Proof.
  apply (page_changes_keep_selection
           [(net_ok [5; 6] 100, Some 3); (net_ok [1; 2] 100, Some 0)]
           (setSelectedIds {[2]} st_loaded)).
  - apply list_elem_of_In. vm_compute. tauto.
  - vm_compute. reflexivity.
Defined.

(** C6, as the code has it. After a fetch that fails, at whatever page
    index, the view is the error panel and not the table; the Retry button
    reloads the document, which mounts the component afresh and requests
    page index 0 (the 1-based page 1) with the fixed page size. *)
Theorem failure_shows_error_panel_retry_reloads net net' st :
  failed (net (request_url (page st) rowsPerPage)) →
  let st' := (fetchData net rowsPerPage st).1 in
  render st' = ErrorPanel "Failed to fetch artworks"
  ∧ (retry net' st').2 = [request_url 0 rowsPerPage]
  ∧ page (retry net' st').1 = 0.
Proof.
  intros Hfail st'. split; [|split].
  - unfold st'. by rewrite fetchData_failed.
  - reflexivity.
  - unfold retry, mount. by rewrite (proj1 (proj2 (fetchData_frame _ _ _))).
Qed.

Lemma failure_shows_error_panel_retry_reloads_witness :
  render (fetchData net_down rowsPerPage (setPage 3 st_loaded)).1
  = ErrorPanel "Failed to fetch artworks".
Proof.
  apply (failure_shows_error_panel_retry_reloads net_down net_down
           (setPage 3 st_loaded)).
  reflexivity.
Defined.

(** C6, as stated, fails: after the fetch for page index 3 failed, Retry
    requests page index 0, not page index 3. *)
Lemma retry_requests_first_page :
  page st_failed_at_3 = 3
  ∧ render st_failed_at_3 = ErrorPanel "Failed to fetch artworks"
  ∧ (retry net_down st_failed_at_3).2
    = ["https://api.artic.edu/api/v1/artworks?page=1&limit=12"]
  ∧ request_url (page st_failed_at_3) rowsPerPage
    = "https://api.artic.edu/api/v1/artworks?page=4&limit=12"
  ∧ (retry net_down st_failed_at_3).2
    ≠ [request_url (page st_failed_at_3) rowsPerPage].
Proof. vm_compute. repeat split. discriminate. Qed.

End ViewOrchestration.

(** ** How the selection handlers compose *)

Section SelectionComposition.

Implicit Types (st : AppState) (rows value : list workTableProps).
Implicit Types (sel : gset Z) (i : Z).

Lemma filter_ext_in {A : Type} (P Q : A → Prop)
    `{!∀ x, Decision (P x)} `{!∀ x, Decision (Q x)} (l : list A) :
  (∀ x, x ∈ l → (P x ↔ Q x)) → filter P l = filter Q l.
Proof.
  induction l as [|a l IH]; intros Hext; [done|].
  rewrite !filter_cons.
  assert (Ha : P a ↔ Q a) by (apply Hext; left).
  rewrite IH by (intros x Hx; apply Hext; by right).
  destruct (decide (P a)), (decide (Q a)); tauto.
Qed.

Lemma filter_all {A : Type} (P : A → Prop) `{!∀ x, Decision (P x)} (l : list A) :
  (∀ x, x ∈ l → P x) → filter P l = l.
Proof.
  induction l as [|a l IH]; intros Hall; [done|].
  rewrite filter_cons_True by (apply Hall; left).
  f_equal. apply IH. intros x Hx. apply Hall. by right.
Qed.

Lemma filter_none {A : Type} (P : A → Prop) `{!∀ x, Decision (P x)} (l : list A) :
  (∀ x, x ∈ l → ¬ P x) → filter P l = [].
Proof.
  induction l as [|a l IH]; intros Hnone; [done|].
  rewrite filter_cons_False by (apply Hnone; left).
  apply IH. intros x Hx. apply Hnone. by right.
Qed.

Lemma length_filter_split {A : Type} (P : A → Prop) `{!∀ x, Decision (P x)}
    (l : list A) :
  (length (filter P l) + length (filter (λ x, ¬ P x) l) = length l)%nat.
Proof.
  induction l as [|a l IH]; [done|].
  rewrite !filter_cons.
  destruct (decide (P a)), (decide (¬ P a)); simpl; try tauto; lia.
Qed.

Lemma elem_of_ids_of r rows : r ∈ rows → id r ∈ ids rows.
Proof. intros Hr. apply elem_of_ids. eauto. Qed.

(** Rows of a page with pairwise distinct identifiers are told apart by
    their identifier. *)
Lemma NoDup_ids_inj rows r1 r2 :
  NoDup (id <$> rows) → r1 ∈ rows → r2 ∈ rows → id r1 = id r2 → r1 = r2.
Proof.
  induction rows as [|r rows IH]; intros Hnd H1 H2 Heq.
  - by apply elem_of_nil in H1.
  - rewrite fmap_cons in Hnd. apply NoDup_cons in Hnd as [Hr Hnd].
    apply elem_of_cons in H1 as [->|H1]; apply elem_of_cons in H2 as [->|H2].
    + done.
    + destruct Hr. rewrite Heq. apply list_elem_of_fmap. eauto.
    + destruct Hr. rewrite <- Heq. apply list_elem_of_fmap. eauto.
    + by apply IH.
Qed.

Lemma size_ids_NoDup rows : NoDup (id <$> rows) → size (ids rows) = length rows.
Proof.
  intros Hnd. unfold ids. rewrite size_list_to_set by done.
  by rewrite length_fmap.
Qed.

Lemma selectedIds_onSelectionChange value st i :
  i ∈ selectedIds (onSelectionChange value st)
  ↔ (i ∈ ids (data st) ∧ i ∈ ids value) ∨ ((i ∉ ids (data st)) ∧ i ∈ selectedIds st).
Proof. unfold onSelectionChange, setSelectedIds. cbn [selectedIds]. apply toggle_fold. Qed.

Lemma data_onSelectionChange value st : data (onSelectionChange value st) = data st.
Proof. reflexivity. Qed.

Lemma ids_pageSelection st i :
  i ∈ ids (pageSelection st) ↔ i ∈ ids (data st) ∧ i ∈ selectedIds st.
Proof.
  rewrite !elem_of_ids. unfold pageSelection. split.
  - intros (r & Hr & <-). apply list_elem_of_filter in Hr as [Hs Hr]. eauto.
  - intros [(r & Hr & <-) Hs]. exists r. split; [|done].
    by apply list_elem_of_filter.
Qed.

Lemma availableCount_length st :
  availableCount st = Z.of_nat (length (available st)).
Proof.
  unfold availableCount, available, pageSelection.
  pose proof (length_filter_split (λ row, id row ∈ selectedIds st) (data st))
    as Hsplit.
  cbv beta in Hsplit. lia.
Qed.

Lemma NoDup_ids_sublist rows rows' :
  rows' `sublist_of` rows → NoDup (id <$> rows) → NoDup (id <$> rows').
Proof.
  intros Hsub Hnd. eapply sublist_NoDup; [exact Hnd|by apply fmap_sublist].
Qed.

Lemma NoDup_ids_available st :
  NoDup (id <$> data st) → NoDup (id <$> available st).
Proof. apply NoDup_ids_sublist. unfold available. apply sublist_filter. Qed.

(** Among rows with pairwise distinct identifiers, the rows whose
    identifier is not one of the first [n] are the rows after the first
    [n]. *)
Lemma filter_not_take (n : nat) rows :
  NoDup (id <$> rows) →
  filter (λ r, id r ∉ ids (take n rows)) rows = drop n rows.
Proof.
  intros Hnd. rewrite <- (take_drop n rows), fmap_app in Hnd.
  apply NoDup_app in Hnd as (_ & Hdisj & _).
  transitivity (filter (λ r, id r ∉ ids (take n rows))
                  (take n rows ++ drop n rows)); [by rewrite take_drop|].
  rewrite filter_app.
  rewrite filter_none, filter_all; [done| |].
  - intros r Hr Hin. apply elem_of_ids in Hin as (r' & Hr' & Heq).
    apply (Hdisj (id r')).
    + apply list_elem_of_fmap. eauto.
    + rewrite Heq. apply list_elem_of_fmap. eauto.
  - intros r Hr Hn. by apply Hn, elem_of_ids_of.
Qed.

Lemma available_handleCustomSelect st :
  0 < selectCount st →
  available (handleCustomSelect st)
  = filter (λ r, id r ∉ ids (take (Z.to_nat (selectCount st)) (available st)))
      (available st).
Proof.
  intros Hpos. rewrite handleCustomSelect_pos by done.
  set (chosen := take (Z.to_nat (selectCount st)) (available st)).
  unfold available.
  cbn [data selectedIds setOverlayOpen setSelectCount setSelectedIds].
  rewrite list_filter_filter. apply list_filter_iff. intros r.
  rewrite not_elem_of_union. tauto.
Qed.

(** X1. The number of available rows that the overlay announces, and gives
    its input as [max], is the number of rows [handleCustomSelect] chooses
    from; it lies between zero and the length of the page. *)
Theorem availableCount_available st :
  availableCount st = Z.of_nat (length (available st))
  ∧ 0 ≤ availableCount st ≤ Z.of_nat (length (data st)).
Proof.
  pose proof (availableCount_length st). unfold available in *.
  pose proof (length_filter (λ r, id r ∉ selectedIds st) (data st)). lia.
Qed.

(** X2. Of two selection changes on the same page the later one decides: the
    earlier one leaves no trace in the state. In particular a selection
    change applied twice is the same as applied once. *)
Theorem onSelectionChange_overrides value1 value2 st :
  onSelectionChange value2 (onSelectionChange value1 st)
  = onSelectionChange value2 st.
Proof.
  assert (Hsel : selectedIds (onSelectionChange value2 (onSelectionChange value1 st))
                 = selectedIds (onSelectionChange value2 st)).
  { apply set_eq. intros i.
    rewrite !selectedIds_onSelectionChange, data_onSelectionChange. tauto. }
  unfold onSelectionChange in *. unfold setSelectedIds in *.
  cbn [selectedIds data loading totalRecords error page selectCount overlayOpen] in *.
  by rewrite Hsel.
Qed.

(** X3. Handing the table's current selection back to [onSelectionChange]
    changes nothing: the state is the one before. *)
Theorem onSelectionChange_pageSelection st :
  onSelectionChange (pageSelection st) st = st.
Proof.
  assert (Hsel : selectedIds (onSelectionChange (pageSelection st) st)
                 = selectedIds st).
  { apply set_eq. intros i.
    rewrite selectedIds_onSelectionChange, ids_pageSelection.
    destruct (decide (i ∈ ids (data st))); tauto. }
  unfold onSelectionChange in *. unfold setSelectedIds in *.
  cbn [selectedIds] in Hsel. rewrite Hsel. by destruct st.
Qed.

(** X4. Checking every row of the page marks the whole page and leaves no row
    available; unchecking every row marks none and makes the whole page
    available. *)
Theorem onSelectionChange_all_none st :
  pageSelection (onSelectionChange (data st) st) = data st
  ∧ available (onSelectionChange (data st) st) = []
  ∧ pageSelection (onSelectionChange [] st) = []
  ∧ available (onSelectionChange [] st) = data st.
Proof.
  unfold pageSelection, available. rewrite !data_onSelectionChange.
  repeat split.
  - apply filter_all. intros r Hr. apply selectedIds_onSelectionChange.
    left. split; by apply elem_of_ids_of.
  - apply filter_none. intros r Hr Hn. apply Hn.
    apply selectedIds_onSelectionChange. left. split; by apply elem_of_ids_of.
  - apply filter_none. intros r Hr Hs.
    apply selectedIds_onSelectionChange in Hs as [[_ Hv]|[Hn _]].
    + by rewrite ids_nil in Hv.
    + by apply Hn, elem_of_ids_of.
  - apply filter_all. intros r Hr Hs.
    apply selectedIds_onSelectionChange in Hs as [[_ Hv]|[Hn _]].
    + by rewrite ids_nil in Hv.
    + by apply Hn, elem_of_ids_of.
Qed.

(** X5. On a page whose rows have pairwise distinct identifiers, a selection
    change with rows of the page comes back as the table's selection: a row
    is marked afterwards exactly when it is one of the rows handed in. *)
Theorem pageSelection_onSelectionChange value st :
  NoDup (id <$> data st) →
  (∀ v, v ∈ value → v ∈ data st) →
  ∀ row, row ∈ pageSelection (onSelectionChange value st) ↔ row ∈ value.
Proof.
  intros Hnd Hsub row. unfold pageSelection.
  rewrite list_elem_of_filter, data_onSelectionChange.
  rewrite selectedIds_onSelectionChange. split.
  - intros [[[_ Hv]|[Hn _]] Hrow].
    + apply elem_of_ids in Hv as (v & Hv & Heq).
      by rewrite <- (NoDup_ids_inj (data st) v row Hnd (Hsub v Hv) Hrow Heq).
    + by destruct Hn; apply elem_of_ids_of.
  - intros Hv. split; [|by apply Hsub].
    left. split; apply elem_of_ids_of; auto.
Qed.

Lemma pageSelection_onSelectionChange_witness :
  mk_row 3 ∈ pageSelection
    (onSelectionChange [mk_row 3; mk_row 1] (with_rows [1; 2; 3] [2; 7] 0)).
Proof.
  apply (pageSelection_onSelectionChange [mk_row 3; mk_row 1]
           (with_rows [1; 2; 3] [2; 7] 0)).
  - vm_compute. repeat constructor; set_solver.
  - intros v Hv. apply list_elem_of_In. apply list_elem_of_In in Hv.
    simpl in *. tauto.
  - apply list_elem_of_In. simpl. tauto.
Defined.

(** X6. Applying the bulk selection twice is applying it once: the first
    application resets the pending count, so the second returns early. *)
Theorem handleCustomSelect_idempotent st :
  handleCustomSelect (handleCustomSelect st) = handleCustomSelect st.
Proof.
  destruct (decide (0 < selectCount st)) as [Hpos|Hle].
  - rewrite (handleCustomSelect_pos st) by done.
    unfold handleCustomSelect at 1.
    cbn [selectCount setOverlayOpen setSelectCount]. done.
  - assert (Hid : handleCustomSelect st = st).
    { unfold handleCustomSelect. case_eq (selectCount st <=? 0); [done|lia]. }
    by rewrite !Hid.
Qed.

(** X7. On a page whose rows have pairwise distinct identifiers, a bulk
    selection with a positive count [n] within the available rows selects
    exactly [n] more identifiers, and the rows left available are the old
    available rows without their first [n]. *)
Theorem handleCustomSelect_exact st :
  NoDup (id <$> data st) →
  0 < selectCount st ≤ Z.of_nat (length (available st)) →
  Z.of_nat (selectionCount (handleCustomSelect st))
  = Z.of_nat (selectionCount st) + selectCount st
  ∧ available (handleCustomSelect st)
    = drop (Z.to_nat (selectCount st)) (available st)
  ∧ availableCount (handleCustomSelect st) = availableCount st - selectCount st.
Proof.
  intros Hnd [Hpos Hle].
  pose proof (NoDup_ids_available st Hnd) as Hav.
  assert (Hdrop : available (handleCustomSelect st)
                  = drop (Z.to_nat (selectCount st)) (available st)).
  { rewrite available_handleCustomSelect by done. by apply filter_not_take. }
  split; [|split].
  - unfold selectionCount. rewrite handleCustomSelect_pos by done.
    cbn [selectedIds setOverlayOpen setSelectCount setSelectedIds].
    rewrite size_union.
    + rewrite size_ids_NoDup.
      * rewrite length_take. lia.
      * eapply NoDup_ids_sublist; [apply sublist_take|done].
    + pose proof (ids_available_disjoint st) as Hdisj.
      pose proof (ids_take_subseteq (Z.to_nat (selectCount st)) (available st))
        as Hsub.
      set_solver.
  - done.
  - rewrite !availableCount_length, Hdrop, length_drop. lia.
Qed.

Lemma handleCustomSelect_exact_witness :
  Z.of_nat (selectionCount (handleCustomSelect (st_bulk 2)))
  = Z.of_nat (selectionCount (st_bulk 2)) + 2
  ∧ available (handleCustomSelect (st_bulk 2)) = [mk_row 4].
Proof.
  destruct (handleCustomSelect_exact (st_bulk 2)) as (Hcount & Hrest & _).
  - vm_compute. repeat constructor; set_solver.
  - vm_compute. split; [reflexivity | discriminate].
  - split; [exact Hcount | exact Hrest].
Defined.

(** X8. A bulk selection with a positive count that reaches the number of
    available rows takes the whole page: every row of the page is marked
    afterwards and none is left available. *)
Theorem handleCustomSelect_exhausts st :
  0 < selectCount st →
  Z.of_nat (length (available st)) ≤ selectCount st →
  available (handleCustomSelect st) = []
  ∧ pageSelection (handleCustomSelect st) = data st
  ∧ availableCount (handleCustomSelect st) = 0.
Proof.
  intros Hpos Hge.
  assert (Hsel : ∀ r, r ∈ data st → id r ∈ selectedIds (handleCustomSelect st)).
  { intros r Hr. rewrite handleCustomSelect_pos by done.
    cbn [selectedIds setOverlayOpen setSelectCount setSelectedIds].
    rewrite take_ge by lia. apply elem_of_union.
    destruct (decide (id r ∈ selectedIds st)) as [Hin|Hout]; [by left|right].
    apply elem_of_ids_of. by apply available_spec. }
  assert (Hdata : data (handleCustomSelect st) = data st).
  { by rewrite handleCustomSelect_pos. }
  assert (Hnone : available (handleCustomSelect st) = []).
  { unfold available. rewrite Hdata. apply filter_none.
    intros r Hr Hn. by apply Hn, Hsel. }
  split; [done|]. split.
  - unfold pageSelection. rewrite Hdata. by apply filter_all.
  - by rewrite availableCount_length, Hnone.
Qed.

Lemma handleCustomSelect_exhausts_witness :
  pageSelection (handleCustomSelect (st_bulk 50)) = data (st_bulk 50).
Proof.
  apply (handleCustomSelect_exhausts (st_bulk 50)).
  - vm_compute. reflexivity.
  - vm_compute. discriminate.
Defined.

End SelectionComposition.

(** ** Every outcome of a fetch *)

Section FetchOutcomes.

Implicit Types (st : AppState) (net : string → fetch_outcome).
Implicit Types (o : fetch_outcome).

(** [fetchData] is [fetch_start], the request, then [settle]. *)
Lemma fetchData_fetch_start net limit st :
  fetchData net limit st
  = (settle (net (request_url (page st) limit)) (fetch_start st),
     [request_url (page st) limit]).
Proof. reflexivity. Qed.

(** X9. Whatever the request meets, [fetchData] ends with [loading] off.
    Under a success status, a body that is a JSON object ends without an
    error, whatever error was there before; a body that is JSON but neither
    an object nor [null] (a number, a string, a boolean, an array) is taken
    without complaint as well: no error, an empty record list, a total of 0,
    and the table shown with no rows. On the outcomes left, a rejected
    request, a non-success status, a body that is not JSON and the JSON
    [null], it ends with the message [Failed to fetch artworks], the error
    panel as the view, and the record list and the total as they were. *)
Theorem fetchData_outcomes net limit st :
  let o := net (request_url (page st) limit) in
  let st' := (fetchData net limit st).1 in
  loading st' = false
  ∧ match o with
    | Response true (Some (JsonObject _ _)) => error st' = None
    | Response true (Some JsonOther) =>
        error st' = None
        ∧ data st' = []
        ∧ totalRecords st' = 0
        ∧ render st' = TablePage [] [] (page st * rowsPerPage) 0 false
    | NetworkError | Response false _
    | Response true None | Response true (Some JsonNull) =>
        error st' = Some "Failed to fetch artworks"
        ∧ render st' = ErrorPanel "Failed to fetch artworks"
        ∧ data st' = data st
        ∧ totalRecords st' = totalRecords st
    end.
Proof.
  intros o st'. unfold st'. rewrite fetchData_fetch_start. cbn [fst].
  fold o. destruct o as [|[] [[|d p|]|]]; done.
Qed.

(** X10. A response that arrives late is written all the same: when two fetches
    are in flight and the response to the earlier one arrives last with
    rows, those rows are the record list, under the page index of the later
    request. *)
Theorem overtaken_shows_stale_rows (pB : Z) rowsA pgA oB st :
  let oA := Response true (Some (JsonObject (Present rowsA) pgA)) in
  data (overtaken pB oA oB st) = rowsA
  ∧ page (overtaken pB oA oB st) = pB
  ∧ loading (overtaken pB oA oB st) = false
  ∧ (is_object_response oB = true →
     render (overtaken pB oA oB st)
     = TablePage rowsA (filter (λ row, id row ∈ selectedIds st) rowsA)
         (pB * rowsPerPage) (totalRecords (overtaken pB oA oB st)) false).
Proof.
  intros oA. unfold overtaken, oA.
  destruct oB as [|[] [[|d p|]|]]; repeat split; done.
Qed.

Lemma overtaken_shows_stale_rows_witness :
  render (overtaken 3 (net_ok [1; 2] 100 "") (net_ok [37; 38] 100 "") st_loaded)
  = TablePage [mk_row 1; mk_row 2] [] 36 100 false.
Proof.
  apply (overtaken_shows_stale_rows 3 [mk_row 1; mk_row 2]
           (Present {| total := Present 100 |}) (net_ok [37; 38] 100 "")
           st_loaded).
  reflexivity.
Defined.

(** *** The request URL determines the page and the page size *)

Lemma digits_no_amp d a b : NilEmpty.string_of_uint d ≠ a +:+ "&" +:+ b.
Proof.
  revert a.
  induction d as [|d IH|d IH|d IH|d IH|d IH|d IH|d IH|d IH|d IH|d IH];
    intros [|c a]; simpl; intros Heq;
    try discriminate; injection Heq as Hc Heq; by eapply IH.
Qed.

Lemma string_of_uint_no_amp d a b :
  NilZero.string_of_uint d ≠ a +:+ "&" +:+ b.
Proof.
  destruct d; try apply digits_no_amp.
  destruct a as [|c [|c' a]]; simpl; discriminate.
Qed.

Lemma toString_no_amp (n : Z) a b : toString n ≠ a +:+ "&" +:+ b.
Proof.
  unfold toString. destruct (Z.to_int n) as [d|d]; simpl.
  - apply string_of_uint_no_amp.
  - destruct a as [|c a]; simpl; intros Heq; [discriminate|].
    injection Heq as Hc Heq. by eapply string_of_uint_no_amp.
Qed.

(** Two strings cut at their first [&] are equal piece by piece. *)
Lemma app_amp_inj s1 s2 t1 t2 :
  (∀ a b, s1 ≠ a +:+ "&" +:+ b) →
  (∀ a b, t1 ≠ a +:+ "&" +:+ b) →
  s1 +:+ "&" +:+ s2 = t1 +:+ "&" +:+ t2 → s1 = t1 ∧ s2 = t2.
Proof.
  revert t1. induction s1 as [|c s1 IH]; intros [|c' t1] Hs Ht; simpl; intros Heq.
  - injection Heq as Heq. by subst.
  - injection Heq as Hc Heq. subst c'. by destruct (Ht "" t1).
  - injection Heq as Hc Heq. subst c. by destruct (Hs "" s1).
  - injection Heq as Hc Heq. subst c'.
    destruct (IH t1) as [Hs1 Hs2]; [| |done|by subst].
    + intros a b Ha. subst s1. by apply (Hs (String c a) b).
    + intros a b Ha. subst t1. by apply (Ht (String c a) b).
Qed.

Lemma toString_inj (n m : Z) : toString n = toString m → n = m.
Proof.
  intros Heq. pose proof (int_of_toString n) as Hn.
  rewrite Heq, int_of_toString in Hn. by injection Hn.
Qed.

(** X11. Requests for different pages, or with different page sizes, go to
    different URLs: the URL determines the page index and the page size. *)
Theorem request_url_inj (pg limit pg' limit' : Z) :
  request_url pg limit = request_url pg' limit' ↔ pg = pg' ∧ limit = limit'.
Proof.
  split; [|by intros [-> ->]].
  unfold request_url, search_params, params_to_string, API_BASE.
  cbn -[toString]. intros Heq. simplify_eq.
  apply app_amp_inj in Heq as [Hpg Hlimit]; try apply toString_no_amp.
  simpl in Hlimit. simplify_eq.
  apply toString_inj in Hpg. apply toString_inj in Hlimit. split; [lia|done].
Qed.

End FetchOutcomes.

(** ** The cells, the header and whole runs *)

Section ViewAndRuns.

Implicit Types (st : AppState) (col : columnDef) (rowData : workTableProps).
Implicit Types (i : Z).

Lemma toString_nonempty (n : Z) : toString n ≠ "".
Proof. unfold toString. by destruct (Z.to_int n) as [[]|d]. Qed.

Lemma toString_not_dash (n : Z) : toString n ≠ "—".
Proof. unfold toString. by destruct (Z.to_int n) as [[]|d]. Qed.

Lemma text_of_or_default_nonempty (x : field cell_value) :
  text_of (or_default value_truthy x (StringValue "—")) ≠ "".
Proof.
  destruct x as [| |[s|n]]; simpl; try done.
  - by destruct s.
  - destruct (number_truthy n); [apply toString_nonempty|done].
Qed.

(** The cell of a column other than the title column whose property is a
    number. *)
Lemma body_number col rowData (n : Z) :
  col_field col ≠ "title" →
  get_property rowData (col_field col) = Present (NumberValue n) →
  body col rowData = if n =? 0 then "—" else toString n.
Proof.
  intros Hcol Hget. unfold body. rewrite decide_False by done.
  rewrite Hget. simpl. unfold number_truthy. by destruct (n =? 0).
Qed.

(** X12. No cell of the table is blank, whatever the column and the row:
    an empty title is shown as [Untitled], and in the other columns an
    empty string, and the number zero, are shown as a dash. Every column of
    [COLUMNS] names a property that rows have. The title cell reads
    [Untitled] exactly when the title is empty or is that word, and a date
    cell shows the dash exactly when the date is zero. *)
Theorem body_placeholders col (h : string) (so : option bool) rowData :
  body col rowData ≠ ""
  ∧ Forall (λ c, get_property rowData (col_field c) ≠ Absent) COLUMNS
  ∧ (body {| col_field := "title"; header := h; sortable := so |} rowData
     = "Untitled" ↔ title rowData = "" ∨ title rowData = "Untitled")
  ∧ (body {| col_field := "date_start"; header := h; sortable := so |} rowData
     = "—" ↔ date_start rowData = 0)
  ∧ (body {| col_field := "date_end"; header := h; sortable := so |} rowData
     = "—" ↔ date_end rowData = 0).
Proof.
  split; [|split].
  { unfold body. case_decide.
    - by destruct (title rowData).
    - apply text_of_or_default_nonempty. }
  { by repeat constructor. }
  repeat split.
  - unfold body. simpl. destruct (title rowData); simpl; auto.
  - unfold body. simpl. intros [->| ->]; done.
  - rewrite (body_number _ rowData (date_start rowData)) by done.
    destruct (Z.eqb_spec (date_start rowData) 0); [done|].
    intros Heq. by apply toString_not_dash in Heq.
  - rewrite (body_number _ rowData (date_start rowData)) by done. by intros ->.
  - rewrite (body_number _ rowData (date_end rowData)) by done.
    destruct (Z.eqb_spec (date_end rowData) 0); [done|].
    intros Heq. by apply toString_not_dash in Heq.
  - rewrite (body_number _ rowData (date_end rowData)) by done. by intros ->.
Qed.

Lemma navigate_all_selectedIds
    (evs : list ((string → fetch_outcome) * option Z)) st :
  selectedIds (navigate_all evs st) = selectedIds st.
Proof.
  unfold navigate_all. revert st.
  induction evs as [|[net e] evs IH]; intros st; simpl; [done|].
  by rewrite IH, navigate_selectedIds.
Qed.

(** X13. The badge of the Bulk Select button, and the chip and tag beside it,
    are there exactly when some identifier is selected, on whatever page;
    the badge reads back as the number of selected identifiers, and no run
    of page changes alters it. *)
Theorem badge_counts_selection
    (evs : list ((string → fetch_outcome) * option Z)) st :
  (badge st = None ↔ selectedIds st = ∅)
  ∧ (chip_and_tag st = None ↔ selectedIds st = ∅)
  ∧ (∀ s, badge st = Some s →
          option_map Z.of_int (NilZero.int_of_string s)
          = Some (Z.of_nat (size (selectedIds st))))
  ∧ badge (navigate_all evs st) = badge st.
Proof.
  assert (Hzero : (0 <? Z.of_nat (selectionCount st)) = false
                  ↔ selectedIds st = ∅).
  { unfold selectionCount. rewrite Z.ltb_ge. split.
    - intros Hle. apply leibniz_equiv, size_empty_inv. lia.
    - intros ->. by rewrite size_empty. }
  split; [|split; [|split]].
  - unfold badge. rewrite <- Hzero.
    by destruct (0 <? Z.of_nat (selectionCount st)).
  - unfold chip_and_tag. rewrite <- Hzero.
    by destruct (0 <? Z.of_nat (selectionCount st)).
  - intros s. unfold badge.
    destruct (0 <? Z.of_nat (selectionCount st)); [|done].
    intros [= <-]. apply int_of_toString.
  - unfold badge, selectionCount. by rewrite navigate_all_selectedIds.
Qed.

Lemma badge_counts_selection_witness :
  option_map Z.of_int (NilZero.int_of_string "2")
  = Some (Z.of_nat (size (selectedIds (st_bulk 0)))).
Proof.
  apply (badge_counts_selection [] (st_bulk 0)). reflexivity.
Defined.

(** An event handled while no row of the page carries [i] leaves [i] as
    it was, selected or not. *)
Lemma handle_off_page ev st i :
  i ∉ ids (data st) →
  (i ∈ selectedIds (handle ev st) ↔ i ∈ selectedIds st).
Proof.
  intros Hoff. destruct ev as [net e|value|v| |]; cbn [handle].
  - by rewrite navigate_selectedIds.
  - rewrite selectedIds_onSelectionChange. tauto.
  - done.
  - destruct (decide (0 < selectCount st)) as [Hpos|Hle].
    + rewrite handleCustomSelect_pos by done.
      cbn [selectedIds setOverlayOpen setSelectCount setSelectedIds].
      rewrite elem_of_union. split; [|tauto]. intros [Hi|Hi]; [done|].
      apply ids_take_subseteq, elem_of_ids in Hi as (r & Hr & <-).
      apply available_spec in Hr as [Hr _]. by destruct Hoff; apply elem_of_ids_of.
    + unfold handleCustomSelect.
      by case_eq (selectCount st <=? 0); [|lia].
  - done.
Qed.

Lemma run_cons ev evs st : run (ev :: evs) st = run evs (handle ev st).
Proof. reflexivity. Qed.

(** X14. Whatever happens while no row carrying [i] is on the page, page
    changes, selection changes, bulk selections, leaves [i] selected if it
    was and unselected if it was not. *)
Theorem selection_persists_off_page evs st i :
  (∀ s, s ∈ trace evs st → i ∉ ids (data s)) →
  (i ∈ selectedIds (run evs st) ↔ i ∈ selectedIds st).
Proof.
  revert st. induction evs as [|ev evs IH]; intros st Hoff; [done|].
  rewrite run_cons, IH.
  - apply handle_off_page, Hoff. simpl. left.
  - intros s Hs. apply Hoff. simpl. by right.
Qed.

Lemma selection_persists_off_page_witness :
  7 ∈ selectedIds
        (run [SelectionEvent []; PageEvent (net_ok [5; 6] 100) (Some 1);
              ValueChangeEvent (Some 2); ApplyClick]
           (with_rows [1; 2; 3] [2; 7] 0)).
Proof.
  apply (selection_persists_off_page
           [SelectionEvent []; PageEvent (net_ok [5; 6] 100) (Some 1);
            ValueChangeEvent (Some 2); ApplyClick]
           (with_rows [1; 2; 3] [2; 7] 0) 7).
  - intros s Hs. apply list_elem_of_In in Hs. simpl in Hs.
    destruct Hs as [<-|[<-|[<-|[<-|[]]]]]; vm_compute; discriminate.
  - vm_compute. reflexivity.
Defined.

(** X15. Every selected identifier was selected at the start or is the
    identifier of a row that was on the page when an event was handled: the
    selection never holds an identifier the table has not shown. *)
Theorem selection_from_shown_rows evs st i :
  i ∈ selectedIds (run evs st) →
  i ∈ selectedIds st ∨ ∃ s, s ∈ trace evs st ∧ i ∈ ids (data s).
Proof.
  revert st. induction evs as [|ev evs IH]; intros st Hi; [by left|].
  rewrite run_cons in Hi. apply IH in Hi as [Hi|(s & Hs & Hi)].
  - destruct (decide (i ∈ ids (data st))) as [Hon|Hoff].
    + right. exists st. split; [simpl; left|done].
    + left. by apply (handle_off_page ev st i Hoff).
  - right. exists s. split; [simpl; by right|done].
Qed.

Lemma selection_from_shown_rows_witness :
  5 ∈ selectedIds initial_state
  ∨ ∃ s, s ∈ trace [PageEvent (net_ok [5; 6] 100) (Some 1);
                    ValueChangeEvent (Some 1); ApplyClick]
               (mount (net_ok [1; 2] 100)).1
         ∧ 5 ∈ ids (data s).
Proof.
  apply (selection_from_shown_rows
           [PageEvent (net_ok [5; 6] 100) (Some 1);
            ValueChangeEvent (Some 1); ApplyClick]
           (mount (net_ok [1; 2] 100)).1 5).
  vm_compute. reflexivity.
Defined.

End ViewAndRuns.

End TableArt.
